(** * VoteX: the identity-gated voting state machine of [script.js]

    A shallow embedding of the in-memory aggregate [state] of [script.js] and
    of the functions and event handlers that mutate it, followed by the
    properties of the voting protocol, the option manager, the registry and
    the snapshot import.

    Modelling conventions.
    - A JavaScript string is a [string]; each character stands for one code
      unit in the range 0..255, so [String.length] is [.length].
    - A JavaScript object used as a dictionary is a [gmap string V]: [o[k]]
      is [o !! k] ([None] for [undefined]), [o[k] = v] is [<[k:=v]> o] and
      [delete o[k]] is [delete k o].  Keys inherited from [Object.prototype]
      are outside the model.
    - Truthiness is written out wherever the source relies on it: the empty
      string, [null], [undefined] and the number [0] are falsy.
    - Vote counts are integers ([Z]); the four settings are read by the
      source only through their truthiness and are booleans (a setting that
      an imported document leaves out reads as [false]).
    - Face descriptors, their distances and the threshold 0.55 are exact
      rationals.
    - The DOM, toasts, rendering and [localStorage] are not part of the
      modelled state; what a handler reports is returned as a [notice].
    - The face verification is asynchronous: [vote] leaves its callback in
      the state and a later event runs it.  At most one callback is pending
      at a time. *)

From Stdlib Require Import Ascii String ZArith QArith Qabs Floats Uint63 Lia.
From stdpp Require Import base gmap strings list fin_maps sorting.

Local Open Scope Z_scope.
Local Open Scope string_scope.

(** ** Strings *)

Module JsString.

(** The white space that [String.prototype.trim] strips, among the code
    units 0..255: TAB, LF, VT, FF, CR, SPACE and NBSP. *)
Definition is_space (c : ascii) : bool :=
  bool_decide (nat_of_ascii c ∈ [9; 10; 11; 12; 13; 32; 160]%nat).

Fixpoint trim_start (s : string) : string :=
  match s with
  | EmptyString => EmptyString
  | String c r => if is_space c then trim_start r else s
  end.

Fixpoint trim_end (s : string) : string :=
  match s with
  | EmptyString => EmptyString
  | String c r =>
      match trim_end r with
      | EmptyString => if is_space c then EmptyString else String c EmptyString
      | r' => String c r'
      end
  end.

(** [s.trim()] *)
Definition trim (s : string) : string := trim_end (trim_start s).

(** [!!s] *)
Definition truthy (s : string) : bool :=
  match s with EmptyString => false | _ => true end.

(** One code unit of the class [[A-Za-z0-9_]]. *)
Definition is_word (c : ascii) : bool :=
  let n := nat_of_ascii c in
  ((65 <=? n) && (n <=? 90) || (97 <=? n) && (n <=? 122)
   || (48 <=? n) && (n <=? 57) || (n =? 95))%nat.

Fixpoint all_word (s : string) : bool :=
  match s with
  | EmptyString => true
  | String c r => is_word c && all_word r
  end.

(** [/^[A-Za-z0-9_]+$/.test(s)]: one or more word characters and nothing
    else (no [m] flag, so [$] is the end of the input). *)
Definition word_pattern (s : string) : bool := truthy s && all_word s.

End JsString.

Import JsString.

(** ** State *)

(** [defaults.settings] / [state.settings] *)
Record settings := mkSettings {
  votingOpen : bool;
  showResultsToUsers : bool;
  allowMultipleVotes : bool;
  requireFaceCheck : bool;
}.

(** The literal that initialises [defaults.settings]. *)
Definition settings_literal : settings :=
  {| votingOpen := true; showResultsToUsers := true;
     allowMultipleVotes := false; requireFaceCheck := true |}.

(** [state.settings] is a reference.  [ls.get("va_settings", defaults.settings)]
    and the import's [data.settings || defaults.settings] may both store the
    object [defaults.settings] itself, so that later writes through
    [state.settings] also change the defaults. *)
Inductive settings_ref :=
| SharedDefaults               (* state.settings === defaults.settings *)
| Owned (s : settings).        (* an object of its own *)

(** A face descriptor ([Float32Array]) as a sequence of rationals. *)
Definition descriptor := list Q.

Record state := mkState {
  users : gmap string string;            (* username -> password *)
  votes : gmap string Z;                 (* option -> count *)
  options : list string;
  userVotes : gmap string string;        (* username -> option *)
  settings_of : settings_ref;            (* state.settings *)
  defaults_settings : settings;          (* the object defaults.settings *)
  user : option string;                  (* state.user, None for null *)
  admin : bool;
  faceEnrollments : gmap string bool;
  faceDescriptors : gmap string descriptor;
  tempFaceDescriptor : option descriptor;
  faceCallback : option string;          (* pending () => finalizeVote(option) *)
}.

(** The object [state.settings] points to. *)
Definition cur_settings (st : state) : settings :=
  match settings_of st with
  | SharedDefaults => defaults_settings st
  | Owned s => s
  end.

Definition with_users u st :=
  mkState u (votes st) (options st) (userVotes st) (settings_of st)
    (defaults_settings st) (user st) (admin st) (faceEnrollments st)
    (faceDescriptors st) (tempFaceDescriptor st) (faceCallback st).
Definition with_votes v st :=
  mkState (users st) v (options st) (userVotes st) (settings_of st)
    (defaults_settings st) (user st) (admin st) (faceEnrollments st)
    (faceDescriptors st) (tempFaceDescriptor st) (faceCallback st).
Definition with_options o st :=
  mkState (users st) (votes st) o (userVotes st) (settings_of st)
    (defaults_settings st) (user st) (admin st) (faceEnrollments st)
    (faceDescriptors st) (tempFaceDescriptor st) (faceCallback st).
Definition with_userVotes uv st :=
  mkState (users st) (votes st) (options st) uv (settings_of st)
    (defaults_settings st) (user st) (admin st) (faceEnrollments st)
    (faceDescriptors st) (tempFaceDescriptor st) (faceCallback st).
Definition with_settings_of r st :=
  mkState (users st) (votes st) (options st) (userVotes st) r
    (defaults_settings st) (user st) (admin st) (faceEnrollments st)
    (faceDescriptors st) (tempFaceDescriptor st) (faceCallback st).
Definition with_defaults_settings d st :=
  mkState (users st) (votes st) (options st) (userVotes st) (settings_of st)
    d (user st) (admin st) (faceEnrollments st)
    (faceDescriptors st) (tempFaceDescriptor st) (faceCallback st).
Definition with_user u st :=
  mkState (users st) (votes st) (options st) (userVotes st) (settings_of st)
    (defaults_settings st) u (admin st) (faceEnrollments st)
    (faceDescriptors st) (tempFaceDescriptor st) (faceCallback st).
Definition with_faceEnrollments e st :=
  mkState (users st) (votes st) (options st) (userVotes st) (settings_of st)
    (defaults_settings st) (user st) (admin st) e
    (faceDescriptors st) (tempFaceDescriptor st) (faceCallback st).
Definition with_faceDescriptors d st :=
  mkState (users st) (votes st) (options st) (userVotes st) (settings_of st)
    (defaults_settings st) (user st) (admin st) (faceEnrollments st)
    d (tempFaceDescriptor st) (faceCallback st).
Definition with_tempFaceDescriptor t st :=
  mkState (users st) (votes st) (options st) (userVotes st) (settings_of st)
    (defaults_settings st) (user st) (admin st) (faceEnrollments st)
    (faceDescriptors st) t (faceCallback st).
Definition with_faceCallback c st :=
  mkState (users st) (votes st) (options st) (userVotes st) (settings_of st)
    (defaults_settings st) (user st) (admin st) (faceEnrollments st)
    (faceDescriptors st) (tempFaceDescriptor st) c.

(** A write [state.settings.f = b]: it lands in the object the reference
    points to. *)
Definition write_settings (f : settings → settings) (st : state) : state :=
  match settings_of st with
  | SharedDefaults => with_defaults_settings (f (defaults_settings st)) st
  | Owned s => with_settings_of (Owned (f s)) st
  end.

(** ** What a handler reports *)

Inductive notice :=
| Unauthenticated        (* toast "Please login first." *)
| VotingClosed           (* toast "Voting is currently closed." *)
| AlreadyVoted           (* toast "You have already voted!" *)
| UnknownOption          (* toast "Invalid option." *)
| VoteAccepted           (* toast "Thanks for your vote!" *)
| FaceCheckStarted       (* the face modal is opened, nothing reported yet *)
| FaceScanFailed         (* toast "Face scan failed. Try again." *)
| DuplicateIdentity      (* toast "Identity already exists in VoteX." *)
| FaceScanned            (* toast "Face scanned! Now choose your username." *)
| FaceScanRequired       (* "Please scan your face first." *)
| UsernameTooShort       (* "Username must be at least 3 characters." *)
| WeakPassword           (* "Password must be at least 6 characters." *)
| UsernamePattern        (* "Only letters, numbers, and underscore allowed." *)
| DuplicateUsername      (* "Username already exists." *)
| Registered             (* toast "Welcome to VoteX, <user>!" *)
| LoggedIn               (* toast "Welcome, <user>!" *)
| InvalidCredentials     (* "Invalid username or password." *)
| DuplicateOption        (* toast "Option already exists." *)
| OptionAdded            (* toast "Option added." *)
| MalformedDocument      (* toast "Invalid JSON file." *)
| Imported               (* toast "Imported data." *)
| VotesReset             (* toast "Votes reset." *)
| Silent.                (* the handler returns without a message *)

#[global] Instance notice_eq_dec : EqDecision notice.
Proof. solve_decision. Defined.

(** ** Voting *)

(** [!state.user] is false exactly for a non-empty string. *)
Definition user_truthy (st : state) : bool :=
  match user st with
  | Some u => truthy u
  | None => false
  end.

(** The property key [state.user] is converted to: [String(null)] is
    ["null"]. *)
Definition user_key (st : state) : string :=
  match user st with
  | Some u => u
  | None => "null"
  end.

(** [hasUserVoted(u)]: [!!state.userVotes[u]] *)
Definition hasUserVoted (u : string) (st : state) : bool :=
  match userVotes st !! u with
  | Some o => truthy o
  | None => false
  end.

(** [userChoice(u)] *)
Definition userChoice (u : string) (st : state) : option string :=
  userVotes st !! u.

(** [state.options.includes(option)] *)
Definition includes (o : string) (l : list string) : bool :=
  bool_decide (o ∈ l).

(** [x || 0] for a count read from [state.votes]. *)
Definition or_zero (x : option Z) : Z :=
  match x with
  | Some n => if (n =? 0)%Z then 0 else n
  | None => 0
  end.

(** [finalizeVote(option)] *)
Definition finalizeVote (option : string) (st : state) : state :=
  let st1 := with_votes (<[option := or_zero (votes st !! option) + 1]> (votes st)) st in
  if negb (allowMultipleVotes (cur_settings st1))
  then with_userVotes (<[user_key st1 := option]> (userVotes st1)) st1
  else st1.

(** [vote(option)].  With [requireFaceCheck] the call only opens the face
    verification with the callback [() => finalizeVote(option)]; the
    callback runs when a later event reports a detected face. *)
Definition vote (option : string) (st : state) : state * notice :=
  if negb (user_truthy st) then (st, Unauthenticated)
  else if negb (votingOpen (cur_settings st)) then (st, VotingClosed)
  else if negb (allowMultipleVotes (cur_settings st)) && hasUserVoted (user_key st) st
  then (st, AlreadyVoted)
  else if negb (includes option (options st)) then (st, UnknownOption)
  else if requireFaceCheck (cur_settings st)
  then (with_faceCallback (Some option) st, FaceCheckStarted)
  else (finalizeVote option st, VoteAccepted).

(** The face detector reports a face: [stopFaceVerification()] and then the
    pending callback. *)
Definition faceDetected (st : state) : state * notice :=
  match faceCallback st with
  | Some option => (finalizeVote option (with_faceCallback None st), VoteAccepted)
  | None => (st, Silent)
  end.

(** [stopFaceVerification()] from the close button: the pending callback is
    abandoned. *)
Definition stopFaceVerification (st : state) : state :=
  with_faceCallback None st.

(** [castVote(identity, option)] of the specification: [vote] followed, when
    the face check is required, by the outcome of the verification ([face]
    tells whether a face was detected before the modal was closed), with no
    other event in between. *)
Definition castVote (option : string) (face : bool) (st : state) : state * notice :=
  let '(st1, n) := vote option st in
  match n with
  | FaceCheckStarted =>
      if face then faceDetected st1 else (stopFaceVerification st1, Silent)
  | _ => (st1, n)
  end.

(** ** Option management and administration *)

(** The click handler of [#btnAddOption]; [raw] is the content of the input
    field. *)
Definition addOption (raw : string) (st : state) : state * notice :=
  let name := trim raw in
  if negb (truthy name) then (st, Silent)
  else if includes name (options st) then (st, DuplicateOption)
  else
    let st1 := with_options (options st ++ [name]) st in
    (with_votes (<[name := or_zero (votes st1 !! name)]> (votes st1)) st1, OptionAdded).

(** The click handler of the remove button of the chip of [opt]. *)
Definition removeOption (opt : string) (st : state) : state :=
  let st1 := with_options (filter (λ o, o ≠ opt) (options st)) st in
  let st2 := with_votes (delete opt (votes st1)) st1 in
  with_userVotes (filter (λ kv, kv.2 ≠ opt) (userVotes st2)) st2.

(** The click handler of [#btnResetVotes]; [confirmed] is the answer to the
    confirmation dialog. *)
Definition resetVotes (confirmed : bool) (st : state) : state * notice :=
  if negb confirmed then (st, Silent)
  else
    let st1 := with_votes ((λ _, 0) <$> votes st) st in
    (with_userVotes ∅ st1, VotesReset).

Definition set_votingOpen (b : bool) (s : settings) : settings :=
  mkSettings b (showResultsToUsers s) (allowMultipleVotes s) (requireFaceCheck s).
Definition set_showResultsToUsers (b : bool) (s : settings) : settings :=
  mkSettings (votingOpen s) b (allowMultipleVotes s) (requireFaceCheck s).
Definition set_requireFaceCheck (b : bool) (s : settings) : settings :=
  mkSettings (votingOpen s) (showResultsToUsers s) (allowMultipleVotes s) b.

(** The change handlers of the three toggles. *)
Definition toggleVoting (b : bool) : state → state := write_settings (set_votingOpen b).
Definition toggleResults (b : bool) : state → state := write_settings (set_showResultsToUsers b).
Definition toggleFaceCheck (b : bool) : state → state := write_settings (set_requireFaceCheck b).

(** The total shown by [renderResultsBars]:
    [Object.values(state.votes).reduce((a, b) => a + b, 0)]. *)
Definition tally_sum (m : gmap string Z) : Z :=
  map_fold (λ _ v acc, v + acc) 0 m.

(** ** Snapshot import *)

(** The five fields [importSnapshot] reads from a parsed object.  [None]
    stands for a field that is missing or falsy; a present field has the
    container type of the export format. *)
Record snapshot := mkSnapshot {
  d_users : option (gmap string string);
  d_votes : option (gmap string Z);
  d_options : option (list string);
  d_userVotes : option (gmap string string);
  d_settings : option settings;
}.

(** What [JSON.parse(reader.result)] yields. *)
Inductive document :=
| NotJson                       (* JSON.parse throws *)
| JsonNull                      (* the text null *)
| JsonNonObject                 (* a number, string, boolean or array *)
| JsonObject (d : snapshot).

(** The five property reads on the parsed value; they read [undefined] on a
    number, string, boolean or array. *)
Definition fields (doc : document) : option snapshot :=
  match doc with
  | NotJson | JsonNull => None
  | JsonNonObject => Some (mkSnapshot None None None None None)
  | JsonObject d => Some d
  end.

(** The [onload] handler of the change handler of [#fileImport]. *)
Definition importSnapshot (doc : document) (confirmed : bool) (st : state)
  : state * notice :=
  match doc with
  | NotJson => (st, MalformedDocument)
  | _ =>
      if negb confirmed then (st, Silent)
      else match fields doc with
           | None => (st, MalformedDocument)     (* null.users throws *)
           | Some d =>
               let st1 := with_users (default ∅ (d_users d)) st in
               let st2 := with_votes (default ∅ (d_votes d)) st1 in
               let st3 := with_options (default [] (d_options d)) st2 in
               let st4 := with_userVotes (default ∅ (d_userVotes d)) st3 in
               let st5 := with_settings_of
                            (match d_settings d with
                             | Some s => Owned s
                             | None => SharedDefaults
                             end) st4 in
               (st5, Imported)
           end
  end.

(** ** Accounts *)

(** [login()]; the arguments are the contents of the two input fields. *)
Definition login (raw_user raw_pass : string) (st : state) : state * notice :=
  let user := trim raw_user in
  let pass := trim raw_pass in
  match users st !! user with
  | Some p =>
      if truthy p && bool_decide (p = pass)
      then (with_user (Some user) st, LoggedIn)
      else (st, InvalidCredentials)
  | None => (st, InvalidCredentials)
  end.

(** [logoutUser()] *)
Definition logoutUser (st : state) : state := with_user None st.

(** [a < b] on rationals. *)
Definition Qltb (a b : Q) : bool := (Qnum a * QDen b <? Qnum b * QDen a)%Z.

(** The uniqueness threshold of [startRegistrationScan]. *)
Definition threshold : Q := 55 # 100.

Section Registration.

(** [faceapi.euclideanDistance], a function of the face-api library. *)
Variable euclideanDistance : descriptor → descriptor → Q.

(** [Object.values(state.faceDescriptors).some(...)] *)
Definition isDuplicate (d : descriptor) (st : state) : bool :=
  existsb (λ kv, Qltb (euclideanDistance d kv.2) threshold)
          (map_to_list (faceDescriptors st)).

(** The callback that [startRegistrationScan] passes to the face
    verification, applied to the descriptor the scan delivers ([None] for
    a null descriptor). *)
Definition registrationScan (scan : option descriptor) (st : state)
  : state * notice :=
  match scan with
  | None => (st, FaceScanFailed)
  | Some d =>
      if isDuplicate d st then (st, DuplicateIdentity)
      else (with_tempFaceDescriptor (Some d) st, FaceScanned)
  end.

End Registration.

(** [state.users[user]] as a condition. *)
Definition user_exists (u : string) (st : state) : bool :=
  match users st !! u with
  | Some p => truthy p
  | None => false
  end.

(** [register()]; the arguments are the contents of the two input fields.
    The result is the state once [runSetups] has cleared
    [tempFaceDescriptor]; the optional WebAuthn enrolment is not modelled. *)
Definition register (raw_user pass : string) (st : state) : state * notice :=
  let user := trim raw_user in
  match tempFaceDescriptor st with
  | None => (st, FaceScanRequired)
  | Some d =>
      if (String.length user <? 3)%nat then (st, UsernameTooShort)
      else if (String.length pass <? 6)%nat then (st, WeakPassword)
      else if negb (word_pattern user) then (st, UsernamePattern)
      else if user_exists user st then (st, DuplicateUsername)
      else
        let st1 := with_users (<[user := pass]> (users st)) st in
        let st2 := with_faceEnrollments (<[user := true]> (faceEnrollments st1)) st1 in
        let st3 := with_faceDescriptors (<[user := d]> (faceDescriptors st2)) st2 in
        let st4 := with_user (Some user) st3 in
        (with_tempFaceDescriptor None st4, Registered)
  end.

(** ** Start-up *)

Definition defaultOptions : list string := ["Option A"; "Option B"; "Option C"].

(** [initOptionsVotes()].  The options inferred from a legacy tally come in
    the enumeration order of the map. *)
Definition initOptionsVotes (st : state) : state :=
  let opts :=
    match options st with
    | [] => match (map_to_list (votes st)).*1 with
            | [] => defaultOptions
            | legacy => legacy
            end
    | o => o
    end in
  let st1 := with_options opts st in
  with_votes (foldl (λ v opt, match v !! opt with
                              | Some _ => v
                              | None => <[opt := 0]> v
                              end) (votes st1) opts) st1.

(** The state a first visit starts from: nothing in [localStorage]. *)
Definition fresh_state : state :=
  initOptionsVotes
    (mkState ∅ ∅ [] ∅ SharedDefaults settings_literal None false ∅ ∅ None None).

(** ** Traces *)









(** ** Invariants *)




(** ** Registration as one operation *)

(** [register(username, password, enrollment)] of the specification: the
    face scan that delivers [d], when there is one, and then [register] on
    the two input fields. *)
Definition registerWith (euclideanDistance : descriptor → descriptor → Q)
    (enrollment : option descriptor) (raw_user pass : string) (st : state)
  : state * notice :=
  match enrollment with
  | None => register raw_user pass st
  | Some d =>
      let '(st1, n) := registrationScan euclideanDistance (Some d) st in
      match n with
      | FaceScanned => register raw_user pass st1
      | _ => (st1, n)
      end
  end.

(** ** Concrete states used in the examples *)

(** A distance that keeps every face apart. *)
Definition unit_distance : descriptor → descriptor → Q := λ _ _, 1%Q.

(** First visit, then alice scans her face and registers: she is logged in. *)
Definition alice_session : state :=
  (registerWith unit_distance (Some [0%Q]) "alice" "secret1" fresh_state).1.

(** A snapshot whose option list holds the empty name. *)
Definition empty_option_doc : snapshot :=
  {| d_users := Some {["alice" := "secret1"]};
     d_votes := Some {["" := 0; "Option B" := 0]};
     d_options := Some [""; "Option B"];
     d_userVotes := None;
     d_settings := Some (mkSettings true true false false) |}.

(** The state after alice's session imports that snapshot. *)
Definition empty_option_state : state :=
  (importSnapshot (JsonObject empty_option_doc) true alice_session).1.



(** * The rest of the script *)

(** ** Sessions: face login and the administrator *)

Definition with_admin a st :=
  mkState (users st) (votes st) (options st) (userVotes st) (settings_of st)
    (defaults_settings st) (user st) a (faceEnrollments st)
    (faceDescriptors st) (tempFaceDescriptor st) (faceCallback st).

(** What [loginWithFace], [adminLogin] and [logoutAdmin] report. *)
Inductive session_notice :=
| UsernameMissing        (* toast "Please enter your username first." *)
| FaceLoginNotEnabled    (* toast "Face login not enabled for this user." *)
| FaceLoginAbandoned     (* the face modal was closed, nothing reported *)
| FaceLoggedIn           (* toast "Welcome back, <user>! (Face Login)" *)
| AdminLoggedIn          (* toast "Admin logged in." *)
| InvalidAdmin           (* "Invalid admin credentials." *)
| AdminLoggedOut.        (* toast "Admin logged out." *)

(** [state.faceEnrollments[username]] as a condition. *)
Definition face_enrolled (u : string) (st : state) : bool :=
  default false (faceEnrollments st !! u).

(** [loginWithFace()] together with the outcome of the face verification it
    starts: [raw_user] is the content of the user name field and [face]
    tells whether a face was detected before the modal was closed.  The
    callback receives no descriptor and compares nothing. *)
Definition loginWithFace (raw_user : string) (face : bool) (st : state)
  : state * session_notice :=
  let username := trim raw_user in
  if negb (truthy username) then (st, UsernameMissing)
  else if negb (face_enrolled username st) then (st, FaceLoginNotEnabled)
  else if face then (with_user (Some username) st, FaceLoggedIn)
  else (st, FaceLoginAbandoned).

(** [adminLogin()]; the arguments are the contents of the two input fields. *)
Definition adminLogin (raw_user raw_pass : string) (st : state)
  : state * session_notice :=
  if bool_decide (trim raw_user = "admin") && bool_decide (trim raw_pass = "admin123")
  then (with_admin true st, AdminLoggedIn)
  else (st, InvalidAdmin).

(** [logoutAdmin()] *)
Definition logoutAdmin (st : state) : state * session_notice :=
  (with_admin false st, AdminLoggedOut).

(** ** Export *)


(** ** What the voter and the administrator see *)

(** [renderVoteOptions()]: one button per option, with a click handler
    [() => vote(opt)] exactly when [hasUserVoted(state.user)] is false. *)
Definition renderVoteOptions (st : state) : list (string * bool) :=
  let voted := hasUserVoted (user_key st) st in
  (λ opt, (opt, negb voted)) <$> options st.

(** The text of [#user-vote-info] that [renderVoteOptions] sets: the choice
    of the user when there is one to show. *)
Definition voteInfo (st : state) : option string :=
  if hasUserVoted (user_key st) st then userChoice (user_key st) st else None.





(** ** Password strength *)

(** [Math.round(x)] on a binary64 number: the nearest integer, a tie going
    up. *)
Definition js_round (x : float) : Z :=
  match Prim2SF x with
  | S754_finite s m e =>
      let n := if s then Z.neg m else Z.pos m in
      if (0 <=? e)%Z then n * 2 ^ e
      else (2 * n + 2 ^ (- e)) / 2 ^ (- e + 1)
  | _ => 0
  end.

Definition is_lower (c : ascii) : bool :=
  let n := nat_of_ascii c in ((97 <=? n) && (n <=? 122))%nat.
Definition is_upper (c : ascii) : bool :=
  let n := nat_of_ascii c in ((65 <=? n) && (n <=? 90))%nat.
Definition is_digit (c : ascii) : bool :=
  let n := nat_of_ascii c in ((48 <=? n) && (n <=? 57))%nat.
Definition is_symbol (c : ascii) : bool :=
  negb (is_lower c || is_upper c || is_digit c).

(** [/re/.test(pw)] for a one-character class. *)
Fixpoint has_char (p : ascii → bool) (s : string) : bool :=
  match s with
  | EmptyString => false
  | String c r => p c || has_char p r
  end.

#[local] Set Warnings "-inexact-float".

(** The running [score] of [scorePassword] after the length factor and the
    four diversity tests, in binary64 arithmetic. *)
Definition scoreSum (len : nat) (lower upper digit symbol : bool) : float :=
  let score := (of_uint63 (Uint63.of_Z (Z.of_nat (Nat.min len 12))) * 3.33)%float in
  let score := if lower then (score + 15)%float else score in
  let score := if upper then (score + 15)%float else score in
  let score := if digit then (score + 15)%float else score in
  if symbol then (score + 15)%float else score.

#[local] Set Warnings "+inexact-float".

(** [scorePassword(pw)] *)
Definition scorePassword (pw : string) : Z :=
  if negb (truthy pw) then 0
  else Z.min 100
         (js_round (scoreSum (String.length pw) (has_char is_lower pw)
                      (has_char is_upper pw) (has_char is_digit pw)
                      (has_char is_symbol pw))).

(** ** Persistence *)

(** The keys of [localStorage] the script reads.  A slot is [None] when the
    key is absent or its text is empty or does not parse ([ls.get] falls
    back to its default in all three cases); a parsed value has the type the
    script expects. *)
Record storage := mkStorage {
  va_users : option (gmap string string);
  legacy_users : option (gmap string string);        (* key "users" *)
  va_votes : option (gmap string Z);
  legacy_votes : option (gmap string Z);             (* key "votes" *)
  va_options : option (list string);
  va_userVotes : option (gmap string string);
  va_settings : option settings;
  va_userLoggedIn : option string;                   (* raw text *)
  legacy_userLoggedIn : option string;               (* key "userLoggedIn" *)
  va_adminLoggedIn : option string;                  (* raw text *)
  va_faceEnrollments : option (gmap string bool);
  va_faceDescriptors : option (gmap string descriptor);
}.

(** [a || b] on two raw reads. *)
Definition raw_or (a b : option string) : option string :=
  match a with
  | Some s => if truthy s then a else b
  | None => b
  end.

(** The initialiser of [state] and the rehydration of the descriptors. *)
Definition load (s : storage) : state :=
  {| users := default (default ∅ (legacy_users s)) (va_users s);
     votes := default (default ∅ (legacy_votes s)) (va_votes s);
     options := default [] (va_options s);
     userVotes := default ∅ (va_userVotes s);
     settings_of := match va_settings s with
                    | Some x => Owned x
                    | None => SharedDefaults
                    end;
     defaults_settings := settings_literal;
     user := raw_or (va_userLoggedIn s) (legacy_userLoggedIn s);
     admin := bool_decide (va_adminLoggedIn s = Some "true");
     faceEnrollments := default ∅ (va_faceEnrollments s);
     faceDescriptors := default ∅ (va_faceDescriptors s);
     tempFaceDescriptor := None;
     faceCallback := None |}.

(** [saveAll()] *)
Definition saveAll (st : state) (s : storage) : storage :=
  {| va_users := Some (users st);
     legacy_users := legacy_users s;
     va_votes := Some (votes st);
     legacy_votes := Some (votes st);
     va_options := Some (options st);
     va_userVotes := Some (userVotes st);
     va_settings := Some (cur_settings st);
     va_userLoggedIn := va_userLoggedIn s;
     legacy_userLoggedIn := legacy_userLoggedIn s;
     va_adminLoggedIn := va_adminLoggedIn s;
     va_faceEnrollments := Some (faceEnrollments st);
     va_faceDescriptors := Some (faceDescriptors st) |}.

(** [ls.rawSet("va_userLoggedIn", u)] and [ls.del("va_userLoggedIn")] *)
Definition store_user (u : option string) (s : storage) : storage :=
  mkStorage (va_users s) (legacy_users s) (va_votes s) (legacy_votes s)
    (va_options s) (va_userVotes s) (va_settings s) u (legacy_userLoggedIn s)
    (va_adminLoggedIn s) (va_faceEnrollments s) (va_faceDescriptors s).

(** [ls.rawSet("va_adminLoggedIn", "true")] and [ls.del("va_adminLoggedIn")] *)
Definition store_admin (a : option string) (s : storage) : storage :=
  mkStorage (va_users s) (legacy_users s) (va_votes s) (legacy_votes s)
    (va_options s) (va_userVotes s) (va_settings s) (va_userLoggedIn s)
    (legacy_userLoggedIn s) a (va_faceEnrollments s) (va_faceDescriptors s).

(** The page: the aggregate in memory and [localStorage]. *)
Record world := mkWorld {
  mem : state;
  disk : storage;
}.

(** Loading the script: the initialiser, then [initOptionsVotes], which
    ends with [saveAll()]. *)
Definition boot (s : storage) : world :=
  let st := initOptionsVotes (load s) in
  mkWorld st (saveAll st s).

(** What the user and the administrator can do on the page. *)
Inductive action :=
| AVote (option : string)
| AFaceDetected
| ACloseFace
| AAddOption (raw : string)
| ARemoveOption (opt : string)
| AResetVotes (confirmed : bool)
| AToggleVoting (b : bool)
| AToggleResults (b : bool)
| AToggleFaceCheck (b : bool)
| AImport (doc : document) (confirmed : bool)
| AScan (scan : option descriptor)
| ARegister (raw_user pass : string)
| ALogin (raw_user raw_pass : string)
| ALogout
| ALoginWithFace (raw_user : string) (face : bool)
| AAdminLogin (raw_user raw_pass : string)
| AAdminLogout.

Section Page.

Variable euclideanDistance : descriptor → descriptor → Q.

(** One handler run to its end, with the writes to [localStorage] that the
    handler makes: [saveAll()] after a change of the aggregate,
    [ls.rawSet] and [ls.del] for the two session keys. *)
Definition act (w : world) (a : action) : world :=
  let st := mem w in
  let s := disk w in
  match a with
  | AVote o =>
      let '(st', n) := vote o st in
      mkWorld st' (if decide (n = VoteAccepted) then saveAll st' s else s)
  | AFaceDetected =>
      let '(st', n) := faceDetected st in
      mkWorld st' (if decide (n = VoteAccepted) then saveAll st' s else s)
  | ACloseFace => mkWorld (stopFaceVerification st) s
  | AAddOption raw =>
      let '(st', n) := addOption raw st in
      mkWorld st' (if decide (n = OptionAdded) then saveAll st' s else s)
  | ARemoveOption opt =>
      let st' := removeOption opt st in mkWorld st' (saveAll st' s)
  | AResetVotes c =>
      let '(st', n) := resetVotes c st in
      mkWorld st' (if decide (n = VotesReset) then saveAll st' s else s)
  | AToggleVoting b =>
      let st' := toggleVoting b st in mkWorld st' (saveAll st' s)
  | AToggleResults b =>
      let st' := toggleResults b st in mkWorld st' (saveAll st' s)
  | AToggleFaceCheck b =>
      let st' := toggleFaceCheck b st in mkWorld st' (saveAll st' s)
  | AImport doc c =>
      let '(st', n) := importSnapshot doc c st in
      mkWorld st' (if decide (n = Imported) then saveAll st' s else s)
  | AScan scan => mkWorld (registrationScan euclideanDistance scan st).1 s
  | ARegister u p =>
      let '(st', n) := register u p st in
      mkWorld st' (if decide (n = Registered)
                   then store_user (user st') (saveAll st' s) else s)
  | ALogin u p =>
      let '(st', n) := login u p st in
      mkWorld st' (if decide (n = LoggedIn) then store_user (user st') s else s)
  | ALogout => mkWorld (logoutUser st) (store_user None s)
  | ALoginWithFace u face =>
      let '(st', n) := loginWithFace u face st in
      mkWorld st' (match n with
                   | FaceLoggedIn => store_user (user st') s
                   | _ => s
                   end)
  | AAdminLogin u p =>
      let '(st', n) := adminLogin u p st in
      mkWorld st' (match n with
                   | AdminLoggedIn => store_admin (Some "true") s
                   | _ => s
                   end)
  | AAdminLogout => mkWorld (logoutAdmin st).1 (store_admin None s)
  end.

(** A sequence of handler runs. *)
Definition acts (w : world) (l : list action) : world := foldl act w l.

End Page.

(** ** Invariants of the whole page *)







(** ** Further definitions for the properties *)


(** [!!s] on a raw read. *)
Definition effective (o : option string) : option string :=
  match o with
  | Some s => if truthy s then Some s else None
  | None => None
  end.



(** The two session keys agree with the session in memory; the legacy key
    of the user is never written. *)
Definition session_saved (s0 : storage) (w : world) : Prop :=
  legacy_userLoggedIn (disk w) = legacy_userLoggedIn s0
  ∧ admin (mem w) = bool_decide (va_adminLoggedIn (disk w) = Some "true")
  ∧ (legacy_userLoggedIn s0 = None →
     effective (va_userLoggedIn (disk w)) = effective (user (mem w))).

(** A store left by an older version of the script: alice is registered
    and the legacy key says that bob is logged in. *)
Definition legacy_store : storage :=
  mkStorage (Some {["alice" := "secret1"]}) None None None None None None
    None (Some "bob") None None None.




(** How many of the four character classes a password uses. *)
Definition classes (pw : string) : Z :=
  Z.b2z (has_char is_lower pw) + Z.b2z (has_char is_upper pw)
  + Z.b2z (has_char is_digit pw) + Z.b2z (has_char is_symbol pw).

(** * Properties *)

(** ** Basic facts *)

(** Case analysis on every guard of a handler, first to last. *)
Ltac case_guards :=
  repeat match goal with
         | |- context [if ?b then _ else _] => destruct b
         end.


Lemma includes_true (o : string) (l : list string) : includes o l = true ↔ o ∈ l.
Proof. unfold includes. apply bool_decide_eq_true. Qed.

Lemma includes_false (o : string) (l : list string) : includes o l = false ↔ o ∉ l.
Proof. unfold includes. apply bool_decide_eq_false. Qed.

Lemma truthy_true (s : string) : truthy s = true ↔ s ≠ "".
Proof. destruct s; simpl; split; congruence. Qed.

Lemma truthy_false (s : string) : truthy s = false ↔ s = "".
Proof. destruct s; simpl; split; congruence. Qed.

Lemma hasUserVoted_true (u : string) (st : state) :
  hasUserVoted u st = true ↔ ∃ o, userVotes st !! u = Some o ∧ o ≠ "".
Proof.
  unfold hasUserVoted. destruct (userVotes st !! u) as [o|].
  - rewrite truthy_true. split; [eauto|]. by intros (o' & [= <-] & ?).
  - split; [done|]. by intros (? & ? & ?).
Qed.

(** ** Voting *)


Lemma finalizeVote_userVotes (option : string) (st : state) :
  userVotes (finalizeVote option st)
  = if allowMultipleVotes (cur_settings st) then userVotes st
    else <[user_key st := option]> (userVotes st).
Proof.
  unfold finalizeVote.
  change (cur_settings (with_votes _ st)) with (cur_settings st).
  by destruct (allowMultipleVotes (cur_settings st)).
Qed.

Lemma finalizeVote_frame (option : string) (st : state) :
  options (finalizeVote option st) = options st
  ∧ cur_settings (finalizeVote option st) = cur_settings st
  ∧ user (finalizeVote option st) = user st
  ∧ users (finalizeVote option st) = users st
  ∧ faceCallback (finalizeVote option st) = faceCallback st.
Proof. unfold finalizeVote. by destruct (negb _). Qed.

(** The guards of [vote], first to last, and what a passing call does. *)
Lemma vote_checks_in_order (option : string) (st : state) :
  (user_truthy st = false → vote option st = (st, Unauthenticated))
  ∧ (user_truthy st = true → votingOpen (cur_settings st) = false →
     vote option st = (st, VotingClosed))
  ∧ (user_truthy st = true → votingOpen (cur_settings st) = true →
     allowMultipleVotes (cur_settings st) = false →
     hasUserVoted (user_key st) st = true →
     vote option st = (st, AlreadyVoted))
  ∧ (user_truthy st = true → votingOpen (cur_settings st) = true →
     allowMultipleVotes (cur_settings st) = true ∨ hasUserVoted (user_key st) st = false →
     option ∉ options st →
     vote option st = (st, UnknownOption))
  ∧ (user_truthy st = true → votingOpen (cur_settings st) = true →
     allowMultipleVotes (cur_settings st) = true ∨ hasUserVoted (user_key st) st = false →
     option ∈ options st →
     vote option st =
       if requireFaceCheck (cur_settings st)
       then (with_faceCallback (Some option) st, FaceCheckStarted)
       else (finalizeVote option st, VoteAccepted)).
Proof.
  unfold vote. repeat split.
  - by intros ->.
  - by intros -> ->.
  - by intros -> -> -> ->.
  - intros -> -> Hrec Hin. apply includes_false in Hin. rewrite Hin. simpl.
    by destruct Hrec as [-> | ->]; simpl; rewrite ?andb_false_r.
  - intros -> -> Hrec Hin. apply includes_true in Hin. rewrite Hin. simpl.
    by destruct Hrec as [-> | ->]; simpl; rewrite ?andb_false_r.
Qed.

(** A call of [vote] that reports something other than the start of the
    face check or an accepted vote leaves the state as it was. *)
Lemma vote_rejected_unchanged (option : string) (st : state) :
  (vote option st).2 ≠ FaceCheckStarted →
  (vote option st).2 ≠ VoteAccepted →
  (vote option st).1 = st.
Proof.
  unfold vote. case_guards; simpl; congruence.
Qed.







(** What an accepted [castVote] went through and what it leaves. *)
Lemma castVote_accepted (option : string) (face : bool) (st st' : state) :
  castVote option face st = (st', VoteAccepted) →
  user_truthy st = true
  ∧ votingOpen (cur_settings st) = true
  ∧ (allowMultipleVotes (cur_settings st) = true ∨ hasUserVoted (user_key st) st = false)
  ∧ option ∈ options st
  ∧ st' = finalizeVote option
            (if requireFaceCheck (cur_settings st) then with_faceCallback None st else st).
Proof.
  unfold castVote, vote.
  destruct (user_truthy st); simpl; [|by intros [=]].
  destruct (votingOpen (cur_settings st)); simpl; [|by intros [=]].
  destruct (allowMultipleVotes (cur_settings st)) eqn:Hmulti; simpl.
  - destruct (includes option (options st)) eqn:Hin; simpl; [|by intros [=]].
    apply includes_true in Hin.
    destruct (requireFaceCheck (cur_settings st)); simpl.
    + destruct face; simpl; [|by intros [=]]. intros [= <-]. eauto 10.
    + intros [= <-]. eauto 10.
  - destruct (hasUserVoted (user_key st) st) eqn:Hvoted; simpl; [by intros [=]|].
    destruct (includes option (options st)) eqn:Hin; simpl; [|by intros [=]].
    apply includes_true in Hin.
    destruct (requireFaceCheck (cur_settings st)); simpl.
    + destruct face; simpl; [|by intros [=]]. intros [= <-]. eauto 10.
    + intros [= <-]. eauto 10.
Qed.

(** X2: under [allowMultipleVotes = false], once a vote for an option with a
    non-empty name is accepted, every further [castVote] of the same identity
    reports [AlreadyVoted] and changes nothing. *)
Lemma castVote_idempotent (option : string) (face : bool) (st st' : state) :
  allowMultipleVotes (cur_settings st) = false →
  option ≠ "" →
  castVote option face st = (st', VoteAccepted) →
  ∀ option' face', castVote option' face' st' = (st', AlreadyVoted).
Proof.
  intros Hsingle Hname Hcast option' face'.
  destruct (castVote_accepted _ _ _ _ Hcast) as (Huser & Hopen & _ & _ & ->).
  set (st0 := if requireFaceCheck (cur_settings st) then with_faceCallback None st else st).
  assert (Hst0 : user st0 = user st ∧ cur_settings st0 = cur_settings st)
    by (subst st0; by destruct (requireFaceCheck (cur_settings st))).
  destruct Hst0 as [Hu Hs].
  destruct (finalizeVote_frame option st0) as (_ & Hs' & Hu' & _).
  pose proof (vote_checks_in_order option' (finalizeVote option st0))
    as (_ & _ & Hvoted & _).
  assert (Hkey : user_key (finalizeVote option st0) = user_key st0)
    by (unfold user_key; by rewrite Hu').
  unfold castVote. rewrite Hvoted; [done| | | |].
  - unfold user_truthy. by rewrite Hu', Hu.
  - by rewrite Hs', Hs.
  - by rewrite Hs', Hs.
  - apply hasUserVoted_true. exists option. split; [|done].
    rewrite Hkey, finalizeVote_userVotes, Hs, Hsingle.
    by rewrite lookup_insert_eq.
Qed.

(** Alice's first vote on her session is accepted and her second is not. *)
Lemma castVote_idempotent_witness :
  castVote "Option B" true
    (castVote "Option A" true alice_session).1
  = ((castVote "Option A" true alice_session).1, AlreadyVoted).
Proof.
  apply (castVote_idempotent "Option A" true alice_session); [reflexivity|done|].
  by vm_compute.
Defined.

(** C1: the third guard of [vote] tests [!!state.userVotes[u]].  After
    alice has voted for the option with the empty name her record exists,
    [allowMultipleVotes] is off, and her next vote is accepted instead of
    being rejected with [AlreadyVoted]. *)
Theorem vote_ignores_empty_record :
  let st1 := (castVote "" true empty_option_state).1 in
  user st1 = Some "alice"
  ∧ allowMultipleVotes (cur_settings st1) = false
  ∧ userVotes st1 !! "alice" = Some ""
  ∧ castVote "Option B" true st1 = (finalizeVote "Option B" st1, VoteAccepted).
Proof. by vm_compute. Qed.

(** C2: on the same state two successive votes of alice for the option with
    the empty name are both accepted, and its tally goes to 2. *)
Theorem empty_option_counted_twice :
  let st1 := (castVote "" true empty_option_state).1 in
  let st2 := (castVote "" true st1).1 in
  allowMultipleVotes (cur_settings empty_option_state) = false
  ∧ (castVote "" true empty_option_state).2 = VoteAccepted
  ∧ (castVote "" true st1).2 = VoteAccepted
  ∧ votes st1 !! "" = Some 1
  ∧ votes st2 !! "" = Some 2.
Proof. by vm_compute. Qed.

(** ** Options and tallies *)













(** ** The total of the tally *)

Lemma tally_sum_insert_new (k : string) (v : Z) (m : gmap string Z) :
  m !! k = None → tally_sum (<[k := v]> m) = v + tally_sum m.
Proof.
  intros Hk. unfold tally_sum. apply map_fold_insert_L; [intros; lia | done].
Qed.



Lemma tally_sum_zeroed (m : gmap string Z) : tally_sum ((λ _, 0) <$> m) = 0.
Proof.
  induction m as [|k v m Hk IH] using map_ind.
  - by rewrite fmap_empty.
  - rewrite fmap_insert, tally_sum_insert_new, IH; [done|].
    by rewrite lookup_fmap, Hk.
Qed.




(** ** Votes accepted against the total of the tally *)











(** ** Login *)

(** C8, as stated, fails: no identity is named " alice " and the stored
    password of alice is not the input " secret1 ", yet the login with
    these two inputs succeeds. *)
Lemma login_accepts_padded_input :
  users alice_session !! " alice " = None
  ∧ users alice_session !! "alice" = Some "secret1"
  ∧ login " alice " " secret1 " (logoutUser alice_session)
    = (alice_session, LoggedIn).
Proof. by vm_compute. Qed.

(** C8, amended: [login] compares after stripping the white space around
    both inputs.  It succeeds exactly when the registry holds, under the
    stripped user name, a non-empty password equal to the stripped password
    input, and then makes that name the current user; in every other case
    it reports [InvalidCredentials] and changes nothing. *)
Theorem login_spec (raw_user raw_pass : string) (st : state) :
  let r := login raw_user raw_pass st in
  (r.2 = LoggedIn ↔
     users st !! trim raw_user = Some (trim raw_pass) ∧ trim raw_pass ≠ "")
  ∧ (r.2 = LoggedIn → r.1 = with_user (Some (trim raw_user)) st)
  ∧ (r.2 ≠ LoggedIn → r = (st, InvalidCredentials)).
Proof.
  cbv zeta. unfold login.
  destruct (users st !! trim raw_user) as [p|] eqn:Hu; simpl.
  2: { split_and!; [|done..]. split; [done|]. by intros [? _]. }
  destruct (truthy p) eqn:Hp; simpl.
  - apply truthy_true in Hp. case_bool_decide as Heq; simpl.
    + subst p. split_and!; [|done..]. by split.
    + split_and!; [|done..]. split; [done|]. by intros [[= ->] _].
  - apply truthy_false in Hp. subst p.
    split_and!; [|done..]. split; [done|]. by intros [[= <-] Hne].
Qed.

(** Alice logs in again after a logout; a wrong password is refused. *)
Lemma login_spec_witness :
  (login "alice" "secret1" (logoutUser alice_session)).2 = LoggedIn
  ∧ login "alice" "secret2" (logoutUser alice_session)
    = (logoutUser alice_session, InvalidCredentials).
Proof.
  destruct (login_spec "alice" "secret1" (logoutUser alice_session)) as (Hin & _).
  destruct (login_spec "alice" "secret2" (logoutUser alice_session)) as (Hout & _ & Hfail).
  split.
  - apply Hin. by vm_compute.
  - apply Hfail. intros [Hpw _]%Hout. by vm_compute in Hpw.
Defined.

(** The password is stored as typed and compared stripped: carol registers
    with a password that ends in a space and cannot log in with it. *)
Example padded_password_rejected :
  let st := (registerWith unit_distance (Some [0%Q]) "carol" "secret " fresh_state).1 in
  users st !! "carol" = Some "secret "
  ∧ login "carol" "secret " (logoutUser st) = (logoutUser st, InvalidCredentials).
Proof. by vm_compute. Qed.

(** ** Snapshot import *)

(** C6, as stated, fails: a document that is a JSON number, string, boolean
    or array is imported without complaint and empties the registry and the
    option list of alice's session. *)
Lemma import_accepts_non_object :
  (importSnapshot JsonNonObject true alice_session).2 = Imported
  ∧ users alice_session !! "alice" = Some "secret1"
  ∧ users (importSnapshot JsonNonObject true alice_session).1 = ∅
  ∧ options (importSnapshot JsonNonObject true alice_session).1 = []
  ∧ (importSnapshot JsonNonObject true alice_session).1 ≠ alice_session.
Proof.
  split_and!; by vm_compute.
Qed.

(** C6, amended: the import reports [MalformedDocument] exactly for a text
    that is not JSON and for the text [null], once confirmed; whenever it
    does not report [Imported] the state is unchanged.  Every other parsed
    value is imported once confirmed: users, votes, options and vote records
    are replaced by the fields of the document, an absent field by the
    empty map or list, and the settings by the document's settings when it
    has them; the current user and the face data stay. *)
Theorem importSnapshot_spec (doc : document) (confirmed : bool) (st : state) :
  let r := importSnapshot doc confirmed st in
  (r.2 = MalformedDocument ↔ doc = NotJson ∨ (doc = JsonNull ∧ confirmed = true))
  ∧ (r.2 = Imported ↔ confirmed = true ∧ doc ≠ NotJson ∧ doc ≠ JsonNull)
  ∧ (r.2 ≠ Imported → r.1 = st)
  ∧ (r.2 = Imported →
     ∃ d, fields doc = Some d
       ∧ users r.1 = default ∅ (d_users d)
       ∧ votes r.1 = default ∅ (d_votes d)
       ∧ options r.1 = default [] (d_options d)
       ∧ userVotes r.1 = default ∅ (d_userVotes d)
       ∧ (∀ s, d_settings d = Some s → cur_settings r.1 = s)
       ∧ user r.1 = user st
       ∧ faceEnrollments r.1 = faceEnrollments st
       ∧ faceDescriptors r.1 = faceDescriptors st).
Proof.
  cbv zeta.
  destruct doc as [| | |d], confirmed; simpl; split_and!;
    try done; try (split; [done|]); try (split; [|done]); eauto;
    try (by intros [? | [? ?]]); try (by intros (? & ? & ?)).
  - intros _. eexists. by split_and!.
  - intros _. exists d. split_and!; try done.
    intros s Hs. unfold cur_settings. simpl. by rewrite Hs.
Qed.

(** A confirmed import of a snapshot with two options and no settings. *)
Lemma importSnapshot_spec_witness :
  let doc := JsonObject (mkSnapshot None (Some {["Yes" := 4; "No" := 2]})
                           (Some ["Yes"; "No"]) None None) in
  (importSnapshot doc true alice_session).2 = Imported
  ∧ users (importSnapshot doc true alice_session).1 = ∅
  ∧ options (importSnapshot doc true alice_session).1 = ["Yes"; "No"]
  ∧ (importSnapshot NotJson true alice_session) = (alice_session, MalformedDocument).
Proof.
  cbv zeta.
  set (doc := JsonObject _).
  destruct (importSnapshot_spec doc true alice_session) as (_ & Himp & _ & Hrepl).
  assert (Hok : (importSnapshot doc true alice_session).2 = Imported)
    by (by apply Himp).
  destruct (Hrepl Hok) as (d & [= <-] & Hu & _ & Ho & _).
  split_and!; [exact Hok | exact Hu | exact Ho | reflexivity].
Defined.

(** ** Registration *)




Lemma user_exists_true (u : string) (st : state) :
  user_exists u st = true ↔ ∃ p, users st !! u = Some p ∧ p ≠ "".
Proof.
  unfold user_exists. destruct (users st !! u) as [p|].
  - rewrite truthy_true. split; [eauto|]. by intros (? & [= <-] & ?).
  - split; [done|]. by intros (? & ? & ?).
Qed.





(** ** Reset, closed voting and the shared default settings *)

Lemma write_settings_cur (f : settings → settings) (st : state) :
  cur_settings (write_settings f st) = f (cur_settings st).
Proof.
  unfold write_settings, cur_settings.
  destruct (settings_of st) eqn:Href; simpl; [by rewrite Href | done].
Qed.

Lemma write_settings_user (f : settings → settings) (st : state) :
  user (write_settings f st) = user st.
Proof. unfold write_settings. by destruct (settings_of st). Qed.

(** X3: a confirmed [resetVotes] sets every entry of the tally to zero,
    keeps its keys, clears all vote records and leaves the options alone; a
    declined one changes nothing. *)
Theorem resetVotes_spec (st : state) :
  let r := resetVotes true st in
  r.2 = VotesReset
  ∧ (∀ o, votes r.1 !! o = (λ _, 0) <$> (votes st !! o))
  ∧ dom (votes r.1) = dom (votes st)
  ∧ tally_sum (votes r.1) = 0
  ∧ userVotes r.1 = ∅
  ∧ options r.1 = options st
  ∧ resetVotes false st = (st, Silent).
Proof.
  cbv zeta. unfold resetVotes. simpl. split_and!; try done.
  - intros o. apply lookup_fmap.
  - apply dom_fmap_L.
  - apply tally_sum_zeroed.
Qed.

(** X4: once the voting is closed, a vote of a logged-in user is rejected
    with [VotingClosed] and changes nothing, whatever the option and the
    outcome of a face check would be. *)
Theorem closed_voting_rejects (option : string) (face : bool) (st : state) :
  user_truthy st = true →
  castVote option face (toggleVoting false st)
  = (toggleVoting false st, VotingClosed).
Proof.
  intros Huser.
  destruct (vote_checks_in_order option (toggleVoting false st)) as (_ & Hclosed & _).
  unfold castVote. rewrite Hclosed; [done| |].
  - unfold user_truthy, toggleVoting in *. by rewrite write_settings_user.
  - unfold toggleVoting. by rewrite write_settings_cur.
Qed.

(** Alice's vote after the admin has closed the voting. *)
Lemma closed_voting_rejects_witness :
  castVote "Option A" true (toggleVoting false alice_session)
  = (toggleVoting false alice_session, VotingClosed).
Proof. apply closed_voting_rejects. reflexivity. Defined.

(** X5: an import of a snapshot without settings makes [state.settings] the
    object [defaults.settings]: the settings in force are what that object
    holds at the time, and a later toggle writes into it. *)
Theorem import_without_settings_shares_defaults (d : snapshot) (st : state) :
  d_settings d = None →
  let st' := (importSnapshot (JsonObject d) true st).1 in
  settings_of st' = SharedDefaults
  ∧ cur_settings st' = defaults_settings st
  ∧ (∀ b, defaults_settings (toggleVoting b st')
          = set_votingOpen b (defaults_settings st)).
Proof.
  intros Hnone. cbv zeta. unfold importSnapshot. simpl. rewrite Hnone.
  unfold cur_settings, toggleVoting, write_settings. simpl. done.
Qed.

(** On a first visit the admin closes the voting and then imports a snapshot
    without settings: the voting stays closed, although the literal default
    is open. *)
Lemma import_without_settings_shares_defaults_witness :
  let st := toggleVoting false fresh_state in
  let st' := (importSnapshot (JsonObject (mkSnapshot None None None None None)) true st).1 in
  votingOpen settings_literal = true
  ∧ votingOpen (cur_settings st') = false.
Proof.
  cbv zeta. split; [reflexivity|].
  destruct (import_without_settings_shares_defaults
              (mkSnapshot None None None None None)
              (toggleVoting false fresh_state) eq_refl) as (_ & -> & _).
  reflexivity.
Defined.

(** * Properties of the rest of the script *)

(** ** Start-up *)


Lemma map_keys_nil (m : gmap string Z) : (map_to_list m).*1 = [] ↔ m = ∅.
Proof.
  split.
  - intros Hnil. apply map_to_list_empty_iff. by apply fmap_nil_inv in Hnil.
  - intros ->. by rewrite map_to_list_empty.
Qed.




(** ** Persistence *)

(** Unfolds the handlers and splits on every guard and every lookup. *)
Ltac handler_cases :=
  unfold vote, faceDetected, stopFaceVerification, finalizeVote, addOption,
    resetVotes, importSnapshot, fields, registrationScan, register, login,
    logoutUser, loginWithFace, adminLogin, logoutAdmin, toggleVoting,
    toggleResults, toggleFaceCheck, write_settings;
  repeat (simpl; case_match); simpl.









(** ** Sessions across a reload *)

Lemma effective_raw_or (a : option string) : effective (raw_or a None) = effective a.
Proof. destruct a as [x|]; simpl; [|done]. by destruct (truthy x) eqn:Hx; simpl; rewrite ?Hx. Qed.

Lemma boot_session_saved (s : storage) : session_saved s (boot s).
Proof.
  unfold session_saved, boot. simpl. split_and!; try done.
  intros ->. by rewrite effective_raw_or.
Qed.

Lemma act_session_saved (dist : descriptor → descriptor → Q) (s0 : storage)
    (w : world) (a : action) :
  session_saved s0 w → session_saved s0 (act dist w a).
Proof.
  destruct w as [st s]. unfold session_saved. simpl. intros (Hl & Ha & Hu).
  destruct a; unfold act; simpl; handler_cases; simplify_eq; simpl in *;
    split_and!; try done; intros Hnone; specialize (Hu Hnone); simpl; done.
Qed.

Lemma acts_session_saved (dist : descriptor → descriptor → Q) (s0 : storage)
    (l : list action) (w : world) :
  session_saved s0 w → session_saved s0 (acts dist w l).
Proof.
  revert w. induction l as [|a l IH]; intros w Hw; simpl; [done|].
  by apply IH, act_session_saved.
Qed.

Lemma user_boot (s : storage) :
  user (mem (boot s)) = raw_or (va_userLoggedIn s) (legacy_userLoggedIn s).
Proof. done. Qed.

Lemma admin_boot (s : storage) :
  admin (mem (boot s)) = bool_decide (va_adminLoggedIn s = Some "true").
Proof. done. Qed.

(** X8: after any handlers, a reload brings back the administrator session
    as it is and, when the legacy key [userLoggedIn] is not in the store,
    the logged-in user as well.  When the legacy key holds a user name, a
    logout does not last: the reloaded page is logged in as that user. *)
Theorem reload_restores_session (dist : descriptor → descriptor → Q)
    (s : storage) (l : list action) :
  let w := acts dist (boot s) l in
  admin (mem (boot (disk w))) = admin (mem w)
  ∧ (legacy_userLoggedIn s = None →
     effective (user (mem (boot (disk w)))) = effective (user (mem w)))
  ∧ (∀ u, legacy_userLoggedIn s = Some u →
     user (mem (act dist w ALogout)) = None
     ∧ user (mem (boot (disk (act dist w ALogout)))) = Some u).
Proof.
  cbv zeta.
  destruct (acts_session_saved dist s l (boot s) (boot_session_saved s))
    as (Hl & Ha & Hu).
  split_and!.
  - by rewrite admin_boot, Ha.
  - intros Hnone. rewrite <- (Hu Hnone), user_boot, Hl, Hnone.
    apply effective_raw_or.
  - intros u Hsome. split; [done|].
    rewrite user_boot.
    change (raw_or None (legacy_userLoggedIn (disk (acts dist (boot s) l))) = Some u).
    by rewrite Hl, Hsome.
Qed.

(** On that store alice logs in and out, and the reloaded page is logged in
    as bob. *)
Lemma reload_restores_session_witness :
  user (mem (boot (disk (acts unit_distance (boot legacy_store)
                           [ALogin "alice" "secret1"; ALogout]))))
  = Some "bob".
Proof.
  destruct (reload_restores_session unit_distance legacy_store
              [ALogin "alice" "secret1"]) as (_ & _ & Hlegacy).
  by destruct (Hlegacy "bob" eq_refl) as [_ Hbob].
Defined.

(** ** Export and import *)


(** ** Face login *)





(** ** The vote buttons *)

Lemma elem_of_renderVoteOptions (st : state) (opt : string) (b : bool) :
  (opt, b) ∈ renderVoteOptions st ↔
  opt ∈ options st ∧ b = negb (hasUserVoted (user_key st) st).
Proof.
  unfold renderVoteOptions. rewrite list_elem_of_fmap. split.
  - by intros (o & [= -> ->] & Hin).
  - intros (Hin & ->). eauto.
Qed.

(** X11: [renderVoteOptions] draws one button per option, in the order of
    the options, all clickable or all locked.  A click on a clickable button
    is never answered with [UnknownOption] or [AlreadyVoted], and it is
    accepted when a user is logged in, the voting is open and the face check
    succeeds.  The buttons are locked by the vote record alone: with
    [allowMultipleVotes] on and a record present they are locked although
    [vote] would accept the call. *)
Theorem renderVoteOptions_spec (st : state) :
  (renderVoteOptions st).*1 = options st
  ∧ (∀ opt b, (opt, b) ∈ renderVoteOptions st →
       b = negb (hasUserVoted (user_key st) st))
  ∧ (∀ opt, (opt, true) ∈ renderVoteOptions st →
       (vote opt st).2 ≠ UnknownOption
       ∧ (vote opt st).2 ≠ AlreadyVoted
       ∧ (user_truthy st = true → votingOpen (cur_settings st) = true →
          (castVote opt true st).2 = VoteAccepted))
  ∧ (hasUserVoted (user_key st) st = true →
     allowMultipleVotes (cur_settings st) = true →
     user_truthy st = true → votingOpen (cur_settings st) = true →
     ∀ opt, opt ∈ options st →
       (opt, false) ∈ renderVoteOptions st
       ∧ (castVote opt true st).2 = VoteAccepted).
Proof.
  split_and!.
  - unfold renderVoteOptions. rewrite <- list_fmap_compose.
    apply list_fmap_id.
  - intros opt b Hin. by apply elem_of_renderVoteOptions in Hin as [_ ->].
  - intros opt [Hin Hfree]%elem_of_renderVoteOptions.
    apply includes_true in Hin. symmetry in Hfree. apply negb_true_iff in Hfree.
    unfold castVote, vote, faceDetected. rewrite Hin, Hfree, andb_false_r. simpl.
    split_and!.
    + by case_guards.
    + by case_guards.
    + intros -> ->. simpl. by destruct (requireFaceCheck (cur_settings st)).
  - intros Hvoted Hmulti Huser Hopen opt Hin. split.
    + apply elem_of_renderVoteOptions. by rewrite Hvoted.
    + apply includes_true in Hin.
      unfold castVote, vote, faceDetected. rewrite Huser, Hopen, Hmulti, Hin. simpl.
      by destruct (requireFaceCheck (cur_settings st)).
Qed.

(** ** The result bars *)










(** ** Invariants of the voting data *)









(** ** One identity, one vote *)








(** ** Password strength *)

(** The binary64 computation of [scorePassword] agrees with exact
    arithmetic in hundredths on every length and every set of classes. *)
Lemma scoreSum_exact (len : nat) (a b c d : bool) :
  Z.min 100 (js_round (scoreSum len a b c d))
  = (333 * Z.of_nat (Nat.min len 12)
     + 1500 * (Z.b2z a + Z.b2z b + Z.b2z c + Z.b2z d) + 50) / 100.
Proof.
  unfold scoreSum.
  assert (Hk : (Nat.min len 12 ≤ 12)%nat) by lia.
  revert Hk. generalize (Nat.min len 12). intros k Hk.
  do 13 (destruct k as [|k]; [by destruct a, b, c, d; vm_compute|]).
  lia.
Qed.

Lemma has_some_class (pw : string) : pw ≠ "" → (1 ≤ classes pw)%Z.
Proof.
  destruct pw as [|ch pw]; [done|]. intros _. unfold classes, is_symbol. simpl.
  destruct (is_lower ch), (is_upper ch), (is_digit ch); simpl;
    repeat match goal with |- context [has_char ?p ?s] => destruct (has_char p s) end;
    simpl; lia.
Qed.

(** Evaluates the score of one length and one set of classes and settles
    the bounds on it. *)
Ltac score_case H6 :=
  match goal with
  | |- context [(?x / 100)%Z] =>
      let s := fresh "s" in set (s := (x / 100)%Z); vm_compute in s; subst s
  end;
  split_and!;
  [ lia | lia
  | split;
    [ intros ?; first [lia | by split_and!]
    | intros (? & ? & ? & ? & ?); first [lia | done] ]
  | intros Hsix; first [lia | specialize (H6 Hsix); lia] ].

(** X16: [scorePassword] gives 0 for the empty password and otherwise 3.33
    points per character up to twelve characters plus 15 points per
    character class used, rounded to the nearest integer.  The score lies
    between 0 and 100; it is 100 exactly for a password of at least twelve
    characters that uses lower case, upper case, digits and other
    characters; and every password that [register] accepts scores at least
    35. *)
Theorem scorePassword_spec (pw : string) :
  (pw = "" → scorePassword pw = 0)
  ∧ (pw ≠ "" →
     scorePassword pw
     = (333 * Z.of_nat (Nat.min (String.length pw) 12) + 1500 * classes pw + 50) / 100)
  ∧ (0 ≤ scorePassword pw ≤ 100)%Z
  ∧ (scorePassword pw = 100 ↔
     (12 ≤ String.length pw)%nat ∧ has_char is_lower pw = true
     ∧ has_char is_upper pw = true ∧ has_char is_digit pw = true
     ∧ has_char is_symbol pw = true)
  ∧ ((6 ≤ String.length pw)%nat → (35 ≤ scorePassword pw)%Z).
Proof.
  destruct (decide (pw = "")) as [->|Hne].
  { change (scorePassword "") with 0%Z. simpl.
    split_and!; [done | done | lia | lia | | lia].
    split; [done|]. intros [? _]. lia. }
  assert (Hscore : scorePassword pw
                   = (333 * Z.of_nat (Nat.min (String.length pw) 12)
                      + 1500 * classes pw + 50) / 100).
  { unfold scorePassword. apply truthy_true in Hne. rewrite Hne. simpl.
    apply scoreSum_exact. }
  pose proof (has_some_class pw Hne) as Hclass.
  split; [done|]. split; [done|].
  rewrite Hscore. unfold classes in *.
  assert (Hk : (Nat.min (String.length pw) 12 ≤ 12)%nat) by lia.
  assert (H12 : (12 ≤ String.length pw)%nat ↔ Nat.min (String.length pw) 12 = 12%nat)
    by lia.
  assert (H6 : (6 ≤ String.length pw)%nat → (6 ≤ Nat.min (String.length pw) 12)%nat)
    by lia.
  rewrite H12. revert Hk H6 Hclass.
  generalize (Nat.min (String.length pw) 12) as k.
  generalize (has_char is_lower pw) as a, (has_char is_upper pw) as b,
    (has_char is_digit pw) as c, (has_char is_symbol pw) as d.
  intros a b c d k Hk H6 Hclass.
  do 13 (destruct k as [|k];
         [destruct a, b, c, d; simpl in Hclass; score_case H6|]).
  lia.
Qed.

(** ** Enrolled faces stay apart *)

Section FacesApart.

Variable dist : descriptor → descriptor → Q.
Hypothesis dist_sym : ∀ a b, (dist a b == dist b a)%Q.





End FacesApart.



(** ** The administrator flag *)

(** Unfolds the handlers down to the fields of the aggregate they read. *)
Ltac unfold_reads :=
  unfold vote, faceDetected, stopFaceVerification, finalizeVote, addOption,
    removeOption, resetVotes, importSnapshot, fields, registrationScan,
    register, login, logoutUser, loginWithFace, adminLogin, logoutAdmin,
    toggleVoting, toggleResults, toggleFaceCheck, write_settings,
    user_truthy, user_key, hasUserVoted, cur_settings, user_exists,
    face_enrolled, isDuplicate;
  simpl.

(** X17: [adminLogin] succeeds exactly for the user name admin and the
    password admin123, white space around them aside, whatever the registry
    holds.  No other handler reads [state.admin]: run with the flag set
    either way, every handler gives the same result and writes the same
    store, and only [adminLogin] and [logoutAdmin] change the flag. *)
Theorem admin_flag_not_consulted (dist : descriptor → descriptor → Q)
    (w : world) (a : action) (b : bool) :
  let w' := mkWorld (with_admin b (mem w)) (disk w) in
  (∀ u p, (adminLogin u p (mem w)).2 = AdminLoggedIn ↔
          trim u = "admin" ∧ trim p = "admin123")
  ∧ mem (act dist w' a) = with_admin (admin (mem (act dist w' a))) (mem (act dist w a))
  ∧ disk (act dist w' a) = disk (act dist w a)
  ∧ ((∀ u p, a ≠ AAdminLogin u p) → a ≠ AAdminLogout →
     admin (mem (act dist w' a)) = b).
Proof.
  cbv zeta. destruct w as [st s]. cbn [mem disk]. split_and!.
  - intros u p. unfold adminLogin.
    repeat case_bool_decide; simpl; split; try done; by intros [? ?].
  - destruct a; unfold act; cbn [mem disk]; unfold_reads; handler_cases;
      by simplify_eq/=.
  - destruct a; unfold act; cbn [mem disk]; unfold_reads; handler_cases;
      by simplify_eq/=.
  - intros Hlogin Hlogout.
    destruct a; unfold act; cbn [mem disk]; unfold_reads; handler_cases;
      simplify_eq/=; try done; by edestruct Hlogin.
Qed.
